(** * pyEQL salt matching: a shallow embedding of [salt_ion_match.py]

    The module maps a solution, given by its species and their molar
    amounts, to the salt made of its dominant cation and anion.  The
    embedding follows the four functions of the source:
    [_sort_components], [identify_salt], [build_salt] and
    [_trim_formal_charge].

    - Python [int] is [Z], a molar amount is a rational [Q], [str] is
      [string], [None]-or-[str] is [option string].
    - A raised exception is the [Raise] case of [result]; the records
      handed to the module logger are collected in a list.
    - [chem.get_formal_charge] lives in another module of the package
      ([chemical_formula]); the functions below take it as a parameter.
      It is called without a guard, so it may raise like any other call:
      its type is [string -> result Z]. *)

From Stdlib Require Import ZArith QArith String Ascii List Permutation Sorting.Sorted.
From Stdlib Require Import DecimalString.
From stdpp Require Import base option list sorting gmap strings.

Local Open Scope string_scope.
Local Open Scope list_scope.
Local Open Scope Z_scope.

(** ** Exceptions *)

Inductive exn : Type :=
| IndexError
| KeyError (key : string)
| OtherError (what : string).

Inductive result (A : Type) : Type :=
| Ok (a : A)
| Raise (e : exn).
Arguments Ok {A} a.
Arguments Raise {A} e.

#[global] Instance result_ret : MRet result := @Ok.
#[global] Instance result_bind : MBind result :=
  fun A B (k : A -> result B) (r : result A) =>
    match r with
    | Ok a => k a
    | Raise e => Raise e
    end.

#[global] Instance result_fmap : FMap result :=
  fun A B (f : A -> B) (r : result A) =>
    match r with
    | Ok a => Ok (f a)
    | Raise e => Raise e
    end.

(** [for x in l: acc = step acc x], where [step] may raise. *)
Fixpoint for_each {A B} (step : B -> A -> result B) (l : list A) (acc : B) : result B :=
  match l with
  | [] => Ok acc
  | x :: l' => acc' ← step acc x; for_each step l' acc'
  end.

(** [[f(x) for x in l]], where [f] may raise. *)
Fixpoint map_each {A B} (f : A -> result B) (l : list A) : result (list B) :=
  match l with
  | [] => Ok []
  | x :: l' => y ← f x; ys ← map_each f l'; Ok (y :: ys)
  end.

(** [l[0]] *)
Definition getitem0 {A} (l : list A) : result A :=
  match l with
  | [] => Raise IndexError
  | x :: _ => Ok x
  end.

(** ** Strings *)

(** [s.split(sep)] for a one-character separator, the only kind the
    module passes. *)
Fixpoint split (sep : ascii) (s : string) : list string :=
  match s with
  | EmptyString => [EmptyString]
  | String c s' =>
      if Ascii.eqb c sep then EmptyString :: split sep s'
      else match split sep s' with
           | w :: ws => String c w :: ws
           | [] => [String c EmptyString]
           end
  end.

(** [str(n)] for an integer. *)
Definition str (n : Z) : string := NilZero.string_of_int (Z.to_int n).

(** The characters of [s] up to, and without, the first [c]; all of [s]
    when [c] does not occur. *)
Fixpoint substring_before (c : ascii) (s : string) : string :=
  match s with
  | EmptyString => EmptyString
  | String a s' => if Ascii.eqb a c then EmptyString else String a (substring_before c s')
  end.

Fixpoint occurs (c : ascii) (s : string) : Prop :=
  match s with
  | EmptyString => False
  | String a s' => a = c \/ occurs c s'
  end.

Module chem.

(** The value of a decimal digit. *)
Definition digit_value (c : ascii) : option Z :=
  let n := Z.of_nat (nat_of_ascii c) in
  if (48 <=? n) && (n <=? 57) then Some (n - 48) else None.

(** Number of leading [c] in a list of characters. *)
Fixpoint run_length (c : ascii) (l : list ascii) : Z :=
  match l with
  | a :: l' => if Ascii.eqb a c then 1 + run_length c l' else 0
  | [] => 0
  end.

(** Reads a formula from its last character: a run of digits — its value
    [v], [pow] the weight of the next digit — then the sign. *)
Fixpoint signed_number (l : list ascii) (v pow : Z) : Z :=
  match l with
  | a :: l' =>
      match digit_value a with
      | Some d => signed_number l' (v + d * pow) (10 * pow)
      | None => if Ascii.eqb a "+" then v else if Ascii.eqb a "-" then - v else 0
      end
  | [] => 0
  end.

(** The charge spelled by the trailing markers of a formula, 0 when
    there is none. *)
Definition formal_charge (formula : string) : Z :=
  let backwards := rev (list_ascii_of_string formula) in
  match backwards with
  | [] => 0
  | a :: _ =>
      if Ascii.eqb a "+" then run_length "+" backwards
      else if Ascii.eqb a "-" then - run_length "-" backwards
      else signed_number backwards 0 1
  end.

(** Modelled from the spec: [get_formal_charge] of the package's module
    [chemical_formula], whose source is not in [salt_ion_match.py].  The
    spec gives its contract: it "parses trailing charge markers from a
    formula string; returns 0 for neutral species", the markers being
    "repeated [+]/[-] characters, or [+n]/[-n] numeric notation", and its
    failures are "not caught".  An empty string has no trailing character
    to read: reading it raises [IndexError], as indexing an empty [str]
    does.  The function serves for concrete instances only: the theorems
    hold for every charge parser. *)
Definition get_formal_charge (formula : string) : result Z :=
  match formula with
  | EmptyString => Raise IndexError
  | String _ _ => Ok (formal_charge formula)
  end.

End chem.

Section SaltFormula.

(** The charge parser, [chem.get_formal_charge] in the source; every call
    of it may raise. *)
Variable get_formal_charge : string -> result Z.

(** ** [_trim_formal_charge] *)

Definition _trim_formal_charge (formula : string) : result string :=
  charge ← get_formal_charge formula;
  let output := "" in
  if 0 <? charge then Ok (hd "" (split "+" formula))
  else if charge <? 0 then Ok (hd "" (split "-" formula))
  else Ok output.

(** ** [build_salt] *)

(** Lines 110-116: the stoichiometric coefficients
    [(nu_cation, nu_anion)] for the two charges. *)
Definition coefficients (z_cation z_anion : Z) : Z * Z :=
  let nu_cation := Z.abs z_anion in
  let nu_anion := Z.abs z_cation in
  if nu_cation =? nu_anion then (1, 1) else (nu_cation, nu_anion).

Definition build_salt (cation anion : string) : result string :=
  z_cation ← get_formal_charge cation;
  z_anion ← get_formal_charge anion;
  let '(nu_cation, nu_anion) := coefficients z_cation z_anion in
  let salt_formula := "" in
  salt_formula ←
    (if 1 <? nu_cation
     then trimmed ← _trim_formal_charge cation;
          Ok ((((salt_formula +:+ "(") +:+ trimmed) +:+ ")") +:+ str nu_cation)
     else trimmed ← _trim_formal_charge cation;
          Ok (salt_formula +:+ trimmed));
  salt_formula ←
    (if 1 <? nu_anion
     then trimmed ← _trim_formal_charge anion;
          Ok ((((salt_formula +:+ "(") +:+ trimmed) +:+ ")") +:+ str nu_anion)
     else trimmed ← _trim_formal_charge anion;
          Ok (salt_formula +:+ trimmed));
  Ok salt_formula.

End SaltFormula.

(** ** Solutions and the module logger *)

(** What the module reads of a [Solution]: [components], a dict from
    formula to component object, kept as its items in iteration order, and
    [get_amount(formula, unit)], which may raise. *)
Record Solution (Component : Type) : Type := {
  components : list (string * Component);
  get_amount : string -> string -> result Q
}.
Arguments components {Component} s.
Arguments get_amount {Component} s formula unit.

(** [d.keys()], also the order in which [for k in d] visits [d]. *)
Definition keys {V} (d : list (string * V)) : list string := map fst d.

(** [q] is the molar amount of species [k] in [S]. *)
Definition amount_is {Component} (S : Solution Component) (k : string) (q : Q) : Prop :=
  get_amount S k "mol" = Ok q.

(** Whether species [k] has an amount, and it equals [q]. *)
Definition same_amount {Component} (S : Solution Component) (q : Q) (k : string) : bool :=
  match get_amount S k "mol" with
  | Ok q' => Qeq_bool q' q
  | Raise _ => false
  end.

(** Species [a] has at least the amount of species [b]. *)
Definition amount_ge {Component} (S : Solution Component) (a b : string) : Prop :=
  exists qa qb : Q, amount_is S a qa /\ amount_is S b qb /\ (qb <= qa)%Q.

(** [k] is the first key of [l] on which [get_amount] raises, and it
    raises [e]. *)
Definition first_failure {Component} (S : Solution Component)
    (l : list string) (k : string) (e : exn) : Prop :=
  exists done todo : list string,
    l = done ++ k :: todo
    /\ (forall x, In x done -> exists q, amount_is S x q)
    /\ get_amount S k "mol" = Raise e.

Inductive level : Type := DEBUG | INFO | WARNING | ERROR | CRITICAL.

Record LogRecord : Type := { levelname : level; msg : string }.

(** [logger.warning(msg)] *)
Definition warning (text : string) (log : list LogRecord) : list LogRecord :=
  log ++ [{| levelname := WARNING; msg := text |}].

(** ** [sorted(l, key=..., reverse=...)] *)

Definition Qltb (x y : Q) : bool := negb (Qle_bool y x).

(** A stable ascending sort of decorated items, comparing keys with [<]
    only, as [list.sort] does. *)
Fixpoint insert_by_key {A} (x : Q * A) (l : list (Q * A)) : list (Q * A) :=
  match l with
  | [] => [x]
  | y :: l' => if Qltb (fst y) (fst x) then y :: insert_by_key x l' else x :: l
  end.

Fixpoint stable_sort {A} (l : list (Q * A)) : list (Q * A) :=
  match l with
  | [] => []
  | x :: l' => insert_by_key x (stable_sort l')
  end.

(** Decorated items compared by their keys. *)
Definition key_le {A} (x y : Q * A) : Prop := (fst x <= fst y)%Q.

(** The key of every item is computed first; with [reverse] the list is
    reversed before and after the ascending sort, which keeps items of
    equal key in their original order. *)
Definition sorted {A} (l : list A) (key : A -> result Q) (reverse : bool) : result (list A) :=
  decorated ← map_each (fun x => k ← key x; Ok (k, x)) l;
  let decorated := if reverse then list.reverse decorated else decorated in
  let decorated := stable_sort decorated in
  let decorated := if reverse then list.reverse decorated else decorated in
  Ok (map snd decorated).

(** [d.__getitem__] *)
Definition getitem (d : gmap string Q) (k : string) : result Q :=
  match d !! k with
  | Some v => Ok v
  | None => Raise (KeyError k)
  end.

Section SaltMatching.

Context {Component : Type}.
Variable get_formal_charge : string -> result Z.

(** ** [_sort_components] *)

Definition _sort_components (S : Solution Component) : result (list string) :=
  let formula_list := [] in
  let formula_list :=
    fold_left (fun formula_list item => formula_list ++ [item])
              (keys (components S)) formula_list in
  let mol_list : gmap string Q := ∅ in
  mol_list ←
    for_each (fun (mol_list : gmap string Q) item =>
                amount ← get_amount S item "mol"; Ok (<[item := amount]> mol_list))
             (keys (components S)) mol_list;
  sorted formula_list (getitem mol_list) true.

(** ** [identify_salt] *)

(** The body of the loop at lines 68-74, on the pair of slots.  The
    parser is called in the [if] and, when that test fails, once more in
    the [elif]. *)
Definition assign_ion (slots : string * string) (item : string)
  : result (string * string) :=
  let '(cation, anion) := slots in
  charge ← get_formal_charge item;
  if (0 <? charge) && String.eqb cation ""
  then Ok (item, anion)
  else
    charge ← get_formal_charge item;
    if (charge <? 0) && String.eqb anion ""
    then Ok (cation, item)
    else Ok (cation, anion).

(** The loop over [sort_list[0:]], from two empty slots. *)
Definition scan_ions (sort_list : list string) : result (string * string) :=
  for_each assign_ion (drop 0 sort_list) ("", "").

(** The result is [None] or a formula; the second component is the log
    after the call. *)
Definition identify_salt (S : Solution Component) (log : list LogRecord)
  : result (option string) * list LogRecord :=
  match _sort_components S with
  | Raise e => (Raise e, log)
  | Ok sort_list =>
      match getitem0 sort_list with
      | Raise e => (Raise e, log)
      | Ok dominant =>
          if negb (String.eqb dominant "H2O")
          then (Ok None, warning "H2O is not the most prominent component" log)
          else
            match scan_ions sort_list with
            | Raise e => (Raise e, log)
            | Ok (cation, anion) =>
                match build_salt get_formal_charge cation anion with
                | Raise e => (Raise e, log)
                | Ok salt_formula => (Ok (Some salt_formula), log)
                end
            end
      end
  end.

End SaltMatching.

(** A solution of the docstring's kind: water, sodium chloride and traces
    of H+ and OH-. *)
Definition brine : Solution unit := {|
  components := [("Na+", tt); ("H2O", tt); ("OH-", tt); ("Cl-", tt); ("H+", tt)];
  get_amount := fun formula _ =>
    if String.eqb formula "H2O" then Ok (555 # 10)%Q
    else if String.eqb formula "Na+" then Ok (1 # 2)%Q
    else if String.eqb formula "Cl-" then Ok (1 # 2)%Q
    else if String.eqb formula "H+" then Ok (1 # 10000000)%Q
    else if String.eqb formula "OH-" then Ok (1 # 10000000)%Q
    else Raise (OtherError "unknown species")
|}.

(** Water with more ethanol than water: water is not dominant. *)
Definition spirit : Solution unit := {|
  components := [("H2O", tt); ("C2H6O", tt); ("Na+", tt); ("Cl-", tt)];
  get_amount := fun formula _ =>
    if String.eqb formula "H2O" then Ok (10 # 1)%Q
    else if String.eqb formula "C2H6O" then Ok (12 # 1)%Q
    else if String.eqb formula "Na+" then Ok (1 # 100)%Q
    else if String.eqb formula "Cl-" then Ok (1 # 100)%Q
    else Raise (OtherError "unknown species")
|}.

(** Water alone. *)
Definition pure_water : Solution unit := {|
  components := [("H2O", tt)];
  get_amount := fun formula _ =>
    if String.eqb formula "H2O" then Ok (555 # 10)%Q
    else Raise (OtherError "unknown species")
|}.

(** Water and sodium ions, with no anion. *)
Definition sodium_water : Solution unit := {|
  components := [("H2O", tt); ("Na+", tt)];
  get_amount := fun formula _ =>
    if String.eqb formula "H2O" then Ok (555 # 10)%Q
    else if String.eqb formula "Na+" then Ok (1 # 2)%Q
    else Raise (OtherError "unknown species")
|}.

(** A solution with no component at all. *)
Definition no_components : Solution unit := {|
  components := [];
  get_amount := fun _ _ => Raise (OtherError "unknown species")
|}.




(** A solution whose [get_amount] knows water only and raises on every
    other species, naming it. *)
Definition faulty : Solution unit := {|
  components := [("H2O", tt); ("Na+", tt); ("Cl-", tt)];
  get_amount := fun formula _ =>
    if String.eqb formula "H2O" then Ok (555 # 10)%Q
    else Raise (OtherError formula)
|}.

(** * Properties *)

(** ** The docstring's scenario, evaluated *)

Example brine_sorted : _sort_components brine = Ok ["H2O"; "Na+"; "Cl-"; "OH-"; "H+"].
Proof. vm_compute. reflexivity. Qed.

Example brine_salt : identify_salt chem.get_formal_charge brine [] = (Ok (Some "NaCl"), []).
Proof. vm_compute. reflexivity. Qed.

Example charges_read :
  map chem.get_formal_charge ["Na+"; "Fe+++"; "Fe+3"; "SO4-2"; "Cl-"; "H2O"; ""]
  = [Ok 1; Ok 3; Ok 3; Ok (-2); Ok (-1); Ok 0; Raise IndexError].
Proof. vm_compute. reflexivity. Qed.

(** ** Splitting a string *)

Lemma split_hd (c : ascii) (s : string) :
  hd "" (split c s) = substring_before c s.
Proof.
  induction s as [|a s IH]; simpl; [reflexivity|].
  destruct (Ascii.eqb a c); [reflexivity|].
  destruct (split c s) as [|w ws]; simpl in *; congruence.
Qed.

Lemma split_not_nil (c : ascii) (s : string) : split c s <> [].
Proof.
  destruct s as [|a s]; simpl; [discriminate|].
  destruct (Ascii.eqb a c); [discriminate|].
  destruct (split c s); discriminate.
Qed.

(** [substring_before] is the part in front of the first occurrence. *)
Lemma substring_before_occurs (c : ascii) (s : string) :
  occurs c s ->
  exists rest, s = substring_before c s +:+ String c rest
               /\ ~ occurs c (substring_before c s).
Proof.
  induction s as [|a s IH]; simpl; [tauto|].
  intros Hocc. destruct (Ascii.eqb_spec a c) as [->|Hne].
  - exists s. simpl. tauto.
  - destruct Hocc as [?|Hocc]; [contradiction|].
    destruct (IH Hocc) as (rest & Heq & Hno).
    exists rest. split; [|simpl; tauto].
    change (String a s = String a (substring_before c s +:+ String c rest)).
    f_equal. exact Heq.
Qed.

Lemma substring_before_absent (c : ascii) (s : string) :
  ~ occurs c s -> substring_before c s = s.
Proof.
  induction s as [|a s IH]; simpl; [reflexivity|].
  intros Hno. destruct (Ascii.eqb_spec a c) as [->|Hne]; [tauto|].
  rewrite IH; tauto.
Qed.

Lemma append_assoc (s1 s2 s3 : string) :
  (s1 +:+ s2) +:+ s3 = s1 +:+ (s2 +:+ s3).
Proof.
  induction s1 as [|a s1 IH]; [reflexivity|].
  change (String a ((s1 +:+ s2) +:+ s3) = String a (s1 +:+ (s2 +:+ s3))).
  f_equal. exact IH.
Qed.

(** ** [_trim_formal_charge] by the sign of the charge *)

Section TrimFacts.

Variable get_formal_charge : string -> result Z.
Local Abbreviation trim := (_trim_formal_charge get_formal_charge).

Lemma trim_positive (formula : string) (charge : Z) :
  get_formal_charge formula = Ok charge -> 0 < charge ->
  trim formula = Ok (substring_before "+" formula).
Proof.
  intros Hgfc H. unfold _trim_formal_charge. rewrite Hgfc. simpl.
  destruct (Z.ltb_spec 0 charge); [rewrite split_hd; reflexivity|lia].
Qed.

Lemma trim_negative (formula : string) (charge : Z) :
  get_formal_charge formula = Ok charge -> charge < 0 ->
  trim formula = Ok (substring_before "-" formula).
Proof.
  intros Hgfc H. unfold _trim_formal_charge. rewrite Hgfc. simpl.
  destruct (Z.ltb_spec 0 charge); [lia|].
  destruct (Z.ltb_spec charge 0); [rewrite split_hd; reflexivity|lia].
Qed.

Lemma trim_neutral (formula : string) :
  get_formal_charge formula = Ok 0 -> trim formula = Ok "".
Proof.
  intros Hgfc. unfold _trim_formal_charge. rewrite Hgfc. reflexivity.
Qed.

(** A failure of the parser is passed on, and is the only failure. *)
Lemma trim_raise (formula : string) (e : exn) :
  trim formula = Raise e <-> get_formal_charge formula = Raise e.
Proof.
  unfold _trim_formal_charge.
  destruct (get_formal_charge formula) as [charge|e']; simpl;
    [|split; intros [= <-]; reflexivity].
  destruct (0 <? charge); [split; discriminate|].
  destruct (charge <? 0); split; discriminate.
Qed.

Lemma trim_defined (formula : string) (charge : Z) :
  get_formal_charge formula = Ok charge -> exists out, trim formula = Ok out.
Proof.
  intros Hgfc. destruct (trim formula) as [out|e] eqn:Htrim; [eauto|].
  apply trim_raise in Htrim. congruence.
Qed.

Lemma trim_empty (charge : Z) :
  get_formal_charge "" = Ok charge -> trim "" = Ok "".
Proof.
  intros Hgfc. unfold _trim_formal_charge. rewrite Hgfc. simpl.
  destruct (0 <? charge); [reflexivity|]. destruct (charge <? 0); reflexivity.
Qed.

End TrimFacts.

(** C8: [_trim_formal_charge] returns the part of the formula before its
    first ['+'] when the parsed charge is positive, the part before its
    first ['-'] when the charge is negative, and the empty string when the
    charge is zero; so ["Fe+++"], ["SO4-2"] and ["Na+"], read as a cation,
    an anion and a cation, are trimmed to ["Fe"], ["SO4"] and ["Na"].
    Where the sign character occurs, the formula is the result, that
    character and a rest, and the result is free of the character.  When
    the parser raises, so does [_trim_formal_charge]. *)
Theorem trim_formal_charge_by_sign
    (get_formal_charge : string -> result Z) (formula : string) :
  (forall charge : Z,
      get_formal_charge formula = Ok charge -> 0 < charge ->
      _trim_formal_charge get_formal_charge formula
      = Ok (substring_before "+" formula)
      /\ (occurs "+" formula ->
          exists rest : string,
            formula = substring_before "+" formula +:+ String "+" rest
            /\ ~ occurs "+" (substring_before "+" formula)))
  /\ (forall charge : Z,
      get_formal_charge formula = Ok charge -> charge < 0 ->
      _trim_formal_charge get_formal_charge formula
      = Ok (substring_before "-" formula)
      /\ (occurs "-" formula ->
          exists rest : string,
            formula = substring_before "-" formula +:+ String "-" rest
            /\ ~ occurs "-" (substring_before "-" formula)))
  /\ (get_formal_charge formula = Ok 0 ->
      _trim_formal_charge get_formal_charge formula = Ok "")
  /\ (forall e : exn,
      get_formal_charge formula = Raise e ->
      _trim_formal_charge get_formal_charge formula = Raise e)
  /\ (forall charge : Z,
      get_formal_charge "Fe+++" = Ok charge -> 0 < charge ->
      _trim_formal_charge get_formal_charge "Fe+++" = Ok "Fe")
  /\ (forall charge : Z,
      get_formal_charge "SO4-2" = Ok charge -> charge < 0 ->
      _trim_formal_charge get_formal_charge "SO4-2" = Ok "SO4")
  /\ (forall charge : Z,
      get_formal_charge "Na+" = Ok charge -> 0 < charge ->
      _trim_formal_charge get_formal_charge "Na+" = Ok "Na").
Proof.
  split; [|split; [|split; [|split; [|split; [|split]]]]].
  - intros charge Hgfc H. rewrite (trim_positive _ _ _ Hgfc H).
    split; [reflexivity|apply substring_before_occurs].
  - intros charge Hgfc H. rewrite (trim_negative _ _ _ Hgfc H).
    split; [reflexivity|apply substring_before_occurs].
  - apply trim_neutral.
  - intros e. apply trim_raise.
  - intros charge Hgfc H. rewrite (trim_positive _ _ _ Hgfc H). reflexivity.
  - intros charge Hgfc H. rewrite (trim_negative _ _ _ Hgfc H). reflexivity.
  - intros charge Hgfc H. rewrite (trim_positive _ _ _ Hgfc H). reflexivity.
Qed.

Lemma trim_formal_charge_by_sign_witness :
  _trim_formal_charge chem.get_formal_charge "Fe+++" = Ok "Fe"
  /\ _trim_formal_charge chem.get_formal_charge "SO4-2" = Ok "SO4"
  /\ _trim_formal_charge chem.get_formal_charge "Na+" = Ok "Na"
  /\ _trim_formal_charge chem.get_formal_charge "H2O" = Ok ""
  /\ _trim_formal_charge chem.get_formal_charge "" = Raise IndexError.
Proof.
  destruct (trim_formal_charge_by_sign chem.get_formal_charge "H2O")
    as (_ & _ & Hzero & _ & Hfe & Hso4 & Hna).
  destruct (trim_formal_charge_by_sign chem.get_formal_charge "")
    as (_ & _ & _ & Hraise & _).
  split; [apply (Hfe 3); [reflexivity|lia]|].
  split; [apply (Hso4 (-2)); [reflexivity|lia]|].
  split; [apply (Hna 1); [reflexivity|lia]|].
  split; [apply Hzero; reflexivity|].
  apply Hraise. reflexivity.
Defined.

(** ** [build_salt] *)

Section BuildFacts.

Variable get_formal_charge : string -> result Z.
Local Abbreviation trim := (_trim_formal_charge get_formal_charge).
Local Abbreviation build := (build_salt get_formal_charge).

(** The formula in terms of the two coefficients and the two trimmed
    ions. *)
Lemma build_salt_blocks (cation anion : string) (z_cation z_anion : Z)
    (nu_cation nu_anion : Z) (bare_cation bare_anion : string) :
  get_formal_charge cation = Ok z_cation ->
  get_formal_charge anion = Ok z_anion ->
  coefficients z_cation z_anion = (nu_cation, nu_anion) ->
  trim cation = Ok bare_cation ->
  trim anion = Ok bare_anion ->
  build cation anion =
    Ok ((if 1 <? nu_cation then "(" +:+ bare_cation +:+ ")" +:+ str nu_cation
         else bare_cation)
        +:+ (if 1 <? nu_anion then "(" +:+ bare_anion +:+ ")" +:+ str nu_anion
             else bare_anion)).
Proof.
  intros Hc Ha Hnu Hbc Hba. unfold build_salt.
  rewrite Hc, Ha. cbn [mbind result_bind]. rewrite Hnu, Hbc, Hba.
  destruct (1 <? nu_cation), (1 <? nu_anion); cbn [mbind result_bind];
    rewrite ?append_assoc; reflexivity.
Qed.

Lemma coefficients_equal_magnitude (z_cation z_anion : Z) :
  Z.abs z_cation = Z.abs z_anion -> coefficients z_cation z_anion = (1, 1).
Proof.
  intros H. unfold coefficients. rewrite H, Z.eqb_refl. reflexivity.
Qed.

Lemma coefficients_cross (z_cation z_anion : Z) :
  Z.abs z_cation <> Z.abs z_anion ->
  coefficients z_cation z_anion = (Z.abs z_anion, Z.abs z_cation).
Proof.
  intros H. unfold coefficients.
  destruct (Z.eqb_spec (Z.abs z_anion) (Z.abs z_cation)); [congruence|reflexivity].
Qed.

Lemma build_salt_one_to_one (cation anion : string) (z_cation z_anion : Z)
    (bare_cation bare_anion : string) :
  get_formal_charge cation = Ok z_cation ->
  get_formal_charge anion = Ok z_anion ->
  Z.abs z_cation = Z.abs z_anion ->
  trim cation = Ok bare_cation ->
  trim anion = Ok bare_anion ->
  build cation anion = Ok (bare_cation +:+ bare_anion).
Proof.
  intros Hc Ha H Hbc Hba. apply coefficients_equal_magnitude in H.
  rewrite (build_salt_blocks _ _ _ _ _ _ _ _ Hc Ha H Hbc Hba). reflexivity.
Qed.

(** [build_salt] asks the parser about the cation first. *)
Lemma build_salt_raise_cation (cation anion : string) (e : exn) :
  get_formal_charge cation = Raise e -> build cation anion = Raise e.
Proof. intros Hc. unfold build_salt. rewrite Hc. reflexivity. Qed.




End BuildFacts.

(** C4: for a cation of charge [a > 0] and an anion of charge [b < 0], the
    coefficients [build_salt] computes, the collapse to 1 included, balance
    the charge: [a * nu_cation + b * nu_anion = 0]. *)
Theorem coefficients_charge_neutral
    (get_formal_charge : string -> result Z) (cation anion : string) (a b : Z) :
  get_formal_charge cation = Ok a ->
  get_formal_charge anion = Ok b ->
  0 < a -> b < 0 ->
  a * fst (coefficients a b) + b * snd (coefficients a b) = 0.
Proof.
  intros _ _ Hpos Hneg.
  destruct (Z.eq_dec (Z.abs a) (Z.abs b)) as [Heq|Hne].
  - rewrite (coefficients_equal_magnitude _ _ Heq). simpl. lia.
  - rewrite (coefficients_cross _ _ Hne). simpl. lia.
Qed.

Lemma coefficients_charge_neutral_witness :
  coefficients 3 (-2) = (2, 3)
  /\ 3 * fst (coefficients 3 (-2)) + -2 * snd (coefficients 3 (-2)) = 0.
Proof.
  split; [reflexivity|].
  apply (coefficients_charge_neutral chem.get_formal_charge "Fe+3" "SO4-2");
    [reflexivity|reflexivity|lia|lia].
Defined.

(** C5, as stated, fails: with charges +3 and -2 the cation block has
    count 2 and is parenthesised like the anion block. *)
Lemma build_salt_iron_sulfate_not_bare :
  chem.get_formal_charge "Fe+3" = Ok 3
  /\ chem.get_formal_charge "SO4-2" = Ok (-2)
  /\ build_salt chem.get_formal_charge "Fe+3" "SO4-2" <> Ok "Fe2(SO4)3".
Proof.
  split; [reflexivity|]. split; [reflexivity|].
  vm_compute. discriminate.
Qed.

(** C5, amended: [build_salt] applied to ["Fe+3"] and ["SO4-2"], of
    charges +3 and -2, returns ["(Fe)2(SO4)3"]. *)
Theorem build_salt_iron_sulfate (get_formal_charge : string -> result Z) :
  get_formal_charge "Fe+3" = Ok 3 ->
  get_formal_charge "SO4-2" = Ok (-2) ->
  build_salt get_formal_charge "Fe+3" "SO4-2" = Ok "(Fe)2(SO4)3".
Proof.
  intros Hc Ha.
  rewrite (build_salt_blocks _ _ _ _ _ 2 3 _ _ Hc Ha eq_refl
             (trim_positive _ _ _ Hc eq_refl) (trim_negative _ _ _ Ha eq_refl)).
  reflexivity.
Qed.

Lemma build_salt_iron_sulfate_witness :
  build_salt chem.get_formal_charge "Fe+3" "SO4-2" = Ok "(Fe)2(SO4)3".
Proof.
  apply (build_salt_iron_sulfate chem.get_formal_charge); reflexivity.
Defined.

(** C6, as stated, fails: with charges +2 and -1 the anion block has
    count 2 and is parenthesised. *)
Lemma build_salt_magnesium_chloride_not_bare :
  chem.get_formal_charge "Mg+2" = Ok 2
  /\ chem.get_formal_charge "Cl-" = Ok (-1)
  /\ build_salt chem.get_formal_charge "Mg+2" "Cl-" <> Ok "MgCl2".
Proof.
  split; [reflexivity|]. split; [reflexivity|].
  vm_compute. discriminate.
Qed.

(** C6, amended: [build_salt] applied to ["Mg+2"] and ["Cl-"], of charges
    +2 and -1, returns ["Mg(Cl)2"]. *)
Theorem build_salt_magnesium_chloride (get_formal_charge : string -> result Z) :
  get_formal_charge "Mg+2" = Ok 2 ->
  get_formal_charge "Cl-" = Ok (-1) ->
  build_salt get_formal_charge "Mg+2" "Cl-" = Ok "Mg(Cl)2".
Proof.
  intros Hc Ha.
  rewrite (build_salt_blocks _ _ _ _ _ 1 2 _ _ Hc Ha eq_refl
             (trim_positive _ _ _ Hc eq_refl) (trim_negative _ _ _ Ha eq_refl)).
  reflexivity.
Qed.

Lemma build_salt_magnesium_chloride_witness :
  build_salt chem.get_formal_charge "Mg+2" "Cl-" = Ok "Mg(Cl)2".
Proof.
  apply (build_salt_magnesium_chloride chem.get_formal_charge); reflexivity.
Defined.

(** C7: when the two charges are nonzero, of opposite sign and of equal
    magnitude, both coefficients are 1 and [build_salt] returns the trimmed
    cation followed by the trimmed anion, with nothing added; so ["Na+"]
    with ["Cl-"] (charges +1, -1) gives ["NaCl"], and ["Fe+2"] with
    ["SO4-2"] (charges +2, -2) gives ["FeSO4"]. *)
Theorem build_salt_equal_magnitude (get_formal_charge : string -> result Z) :
  (forall (cation anion : string) (z_cation z_anion : Z),
      get_formal_charge cation = Ok z_cation ->
      get_formal_charge anion = Ok z_anion ->
      z_cation <> 0 ->
      z_anion <> 0 ->
      z_cation * z_anion < 0 ->
      Z.abs z_cation = Z.abs z_anion ->
      coefficients z_cation z_anion = (1, 1)
      /\ exists bare_cation bare_anion : string,
           _trim_formal_charge get_formal_charge cation = Ok bare_cation
           /\ _trim_formal_charge get_formal_charge anion = Ok bare_anion
           /\ build_salt get_formal_charge cation anion
              = Ok (bare_cation +:+ bare_anion))
  /\ (get_formal_charge "Na+" = Ok 1 -> get_formal_charge "Cl-" = Ok (-1) ->
      build_salt get_formal_charge "Na+" "Cl-" = Ok "NaCl")
  /\ (get_formal_charge "Fe+2" = Ok 2 -> get_formal_charge "SO4-2" = Ok (-2) ->
      build_salt get_formal_charge "Fe+2" "SO4-2" = Ok "FeSO4").
Proof.
  split; [|split].
  - intros cation anion z_cation z_anion Hc Ha _ _ _ Hmag. split.
    + apply coefficients_equal_magnitude, Hmag.
    + destruct (trim_defined _ _ _ Hc) as [bare_cation Hbc].
      destruct (trim_defined _ _ _ Ha) as [bare_anion Hba].
      exists bare_cation, bare_anion. split; [exact Hbc|]. split; [exact Hba|].
      apply (build_salt_one_to_one _ _ _ _ _ _ _ Hc Ha Hmag Hbc Hba).
  - intros Hc Ha.
    rewrite (build_salt_one_to_one _ _ _ _ _ _ _ Hc Ha eq_refl
               (trim_positive _ _ _ Hc eq_refl) (trim_negative _ _ _ Ha eq_refl)).
    reflexivity.
  - intros Hc Ha.
    rewrite (build_salt_one_to_one _ _ _ _ _ _ _ Hc Ha eq_refl
               (trim_positive _ _ _ Hc eq_refl) (trim_negative _ _ _ Ha eq_refl)).
    reflexivity.
Qed.

Lemma build_salt_equal_magnitude_witness :
  (exists bare_cation bare_anion : string,
      _trim_formal_charge chem.get_formal_charge "Ca+2" = Ok bare_cation
      /\ _trim_formal_charge chem.get_formal_charge "CO3-2" = Ok bare_anion
      /\ build_salt chem.get_formal_charge "Ca+2" "CO3-2"
         = Ok (bare_cation +:+ bare_anion))
  /\ build_salt chem.get_formal_charge "Na+" "Cl-" = Ok "NaCl"
  /\ build_salt chem.get_formal_charge "Fe+2" "SO4-2" = Ok "FeSO4".
Proof.
  destruct (build_salt_equal_magnitude chem.get_formal_charge)
    as (Hall & Hnacl & Hfeso4).
  split; [|split].
  - apply (Hall "Ca+2" "CO3-2" 2 (-2));
      [reflexivity|reflexivity|discriminate|discriminate|reflexivity|reflexivity].
  - apply Hnacl; reflexivity.
  - apply Hfeso4; reflexivity.
Defined.

(** ** Sorting *)

Lemma Qltb_lt (x y : Q) : Qltb x y = true <-> (x < y)%Q.
Proof.
  unfold Qltb. rewrite negb_true_iff, <- not_true_iff_false, Qle_bool_iff.
  split; [apply Qnot_le_lt|apply Qlt_not_le].
Qed.

Lemma Qltb_ge (x y : Q) : Qltb x y = false <-> (y <= x)%Q.
Proof.
  unfold Qltb. rewrite negb_false_iff. apply Qle_bool_iff.
Qed.

Section SortFacts.

Context {A : Type}.
Implicit Types (x y : Q * A) (l : list (Q * A)).

Lemma key_le_trans x y z : key_le x y -> key_le y z -> key_le x z.
Proof. unfold key_le. apply Qle_trans. Qed.

Lemma insert_by_key_perm x l : Permutation (insert_by_key x l) (x :: l).
Proof.
  induction l as [|y l IH]; simpl; [reflexivity|].
  destruct (Qltb (fst y) (fst x)); [|reflexivity].
  rewrite IH. apply perm_swap.
Qed.

Lemma stable_sort_perm l : Permutation (stable_sort l) l.
Proof.
  induction l as [|x l IH]; simpl; [reflexivity|].
  rewrite insert_by_key_perm. apply perm_skip, IH.
Qed.

Lemma insert_by_key_sorted x l :
  StronglySorted key_le l -> StronglySorted key_le (insert_by_key x l).
Proof.
  induction l as [|y l IH]; simpl; intros Hs.
  - repeat constructor.
  - apply StronglySorted_inv in Hs as [Hl Hy].
    destruct (Qltb (fst y) (fst x)) eqn:Hlt.
    + constructor; [apply IH, Hl|].
      rewrite insert_by_key_perm. constructor; [|exact Hy].
      apply Qlt_le_weak, Qltb_lt, Hlt.
    + apply Qltb_ge in Hlt.
      constructor; [constructor; assumption|].
      constructor; [exact Hlt|].
      eapply Forall_impl; [exact Hy|].
      intros z Hz. eapply key_le_trans; [exact Hlt|exact Hz].
Qed.

Lemma stable_sort_sorted l : StronglySorted key_le (stable_sort l).
Proof.
  induction l as [|x l IH]; simpl; [constructor|].
  apply insert_by_key_sorted, IH.
Qed.

End SortFacts.

Lemma reverse_sorted {A} (R : A -> A -> Prop) (l : list A) :
  StronglySorted R l -> StronglySorted (flip R) (reverse l).
Proof.
  induction 1 as [|x l Hl IH Hx]; [constructor|].
  rewrite reverse_cons. apply StronglySorted_app_2; [|exact IH|repeat constructor].
  intros a b Ha Hb. apply list_elem_of_singleton in Hb as ->.
  rewrite elem_of_reverse in Ha. unfold flip.
  rewrite Forall_forall in Hx. apply Hx, Ha.
Qed.

Lemma sorted_lookup {A} (R : A -> A -> Prop) (l : list A) (i j : nat) (a b : A) :
  StronglySorted R l -> (i < j)%nat ->
  l !! i = Some a -> l !! j = Some b -> R a b.
Proof.
  intros Hs. revert i j. induction Hs as [|x l Hl IH Hx]; intros i j Hij Hi Hj.
  - discriminate.
  - destruct j as [|j]; [lia|]. simpl in Hj.
    destruct i as [|i]; simpl in Hi.
    + injection Hi as <-. rewrite Forall_forall in Hx.
      apply Hx, list_elem_of_lookup. eauto.
    + apply (IH i j); [lia|assumption|assumption].
Qed.

(** ** [_sort_components] *)

Lemma append_loop {A} (l acc : list A) :
  fold_left (fun formula_list item => formula_list ++ [item]) l acc = acc ++ l.
Proof.
  revert acc. induction l as [|x l IH]; intros acc; simpl.
  - symmetry. apply app_nil_r.
  - rewrite IH, <- app_assoc. reflexivity.
Qed.

Section RankFacts.

Context {Component : Type} (S : Solution Component).

Local Abbreviation amount_is := (amount_is S).

Local Abbreviation record_amount :=
  (fun (mol_list : gmap string Q) item =>
     amount ← get_amount S item "mol"; Ok (<[item := amount]> mol_list)).

(** After the second loop [mol_list] holds the amount of every key. *)
Lemma mol_list_filled (l : list string) (m m' : gmap string Q) :
  for_each record_amount l m = Ok m' ->
  (forall k, k ∈ l -> exists q, amount_is k q /\ m' !! k = Some q)
  /\ (forall k, k ∉ l -> m' !! k = m !! k).
Proof.
  revert m. induction l as [|x l IH]; intros m; simpl.
  - intros [= <-]. split; [intros k Hk; inversion Hk|reflexivity].
  - destruct (get_amount S x "mol") as [q|e] eqn:Hx; simpl; [|discriminate].
    intros Hrest. destruct (IH _ Hrest) as [Hin Hout]. split.
    + intros k Hk. destruct (decide (k ∈ l)) as [Hl|Hl]; [apply Hin, Hl|].
      apply elem_of_cons in Hk as [->|Hk]; [|contradiction].
      exists q. split; [exact Hx|].
      rewrite (Hout _ Hl). apply lookup_insert_eq.
    + intros k Hk. apply not_elem_of_cons in Hk as [Hne Hl].
      rewrite (Hout _ Hl). apply lookup_insert_ne. congruence.
Qed.

(** The loop fails only with a failure of [get_amount]. *)
Lemma mol_list_raise (l : list string) (m : gmap string Q) (e : exn) :
  for_each record_amount l m = Raise e ->
  exists k, k ∈ l /\ get_amount S k "mol" = Raise e.
Proof.
  revert m. induction l as [|x l IH]; intros m; simpl; [discriminate|].
  destruct (get_amount S x "mol") as [q|e'] eqn:Hx; simpl.
  - intros Hrest. destruct (IH _ Hrest) as (k & Hk & He).
    exists k. split; [right; exact Hk|exact He].
  - intros [= <-]. exists x. split; [left|exact Hx].
Qed.

(** Every key of the sort is found in [mol_list]. *)
Lemma decorate_ok (m : gmap string Q) (l : list string) :
  (forall k, k ∈ l -> exists q, amount_is k q /\ m !! k = Some q) ->
  exists d, map_each (fun x => k ← getitem m x; Ok (k, x)) l = Ok d
            /\ map snd d = l
            /\ Forall (fun p => amount_is (snd p) (fst p)) d.
Proof.
  induction l as [|x l IH]; intros Hl; simpl.
  - exists []. repeat split. constructor.
  - destruct (Hl x) as (q & Hq & Hm); [left|].
    destruct IH as (d & Hd & Hsnd & Hall); [intros k Hk; apply Hl; right; exact Hk|].
    exists ((q, x) :: d). unfold mbind, result_bind in Hd |- *.
    unfold getitem at 1. rewrite Hm, Hd.
    repeat split; [simpl; congruence|]. constructor; assumption.
Qed.

(** The result, when every amount is known: the keys, decorated with
    their amounts, sorted ascending between two reversals. *)
Lemma sort_components_ok (m : gmap string Q) :
  for_each record_amount (keys (components S)) ∅ = Ok m ->
  exists d, _sort_components S = Ok (map snd (reverse (stable_sort (reverse d))))
            /\ map snd d = keys (components S)
            /\ Forall (fun p => amount_is (snd p) (fst p)) d.
Proof.
  intros Hm. destruct (mol_list_filled _ _ _ Hm) as [Hin _].
  destruct (decorate_ok m _ Hin) as (d & Hd & Hsnd & Hall).
  exists d. split; [|split; assumption].
  unfold _sort_components. rewrite Hm. simpl.
  rewrite append_loop. simpl. unfold sorted. rewrite Hd. reflexivity.
Qed.

Lemma sort_components_raise (e : exn) :
  _sort_components S = Raise e ->
  exists k, k ∈ keys (components S) /\ get_amount S k "mol" = Raise e.
Proof.
  unfold _sort_components.
  destruct (for_each _ _ _) as [m|e'] eqn:Hm; simpl.
  - destruct (sort_components_ok m Hm) as (d & Hd & _).
    unfold _sort_components in Hd. rewrite Hm in Hd. simpl in Hd.
    rewrite Hd. discriminate.
  - intros [= <-]. eapply mol_list_raise, Hm.
Qed.

(** There is a ranked list whenever every amount is known. *)
Lemma sort_components_total :
  (forall k, k ∈ keys (components S) -> exists q, amount_is k q) ->
  exists out, _sort_components S = Ok out.
Proof.
  intros Hknown. destruct (_sort_components S) as [out|e] eqn:Hout; [eauto|].
  destruct (sort_components_raise e Hout) as (k & Hk & He).
  destruct (Hknown k Hk) as [q Hq]. hnf in Hq. congruence.
Qed.

Lemma sort_components_decorated (out : list string) :
  _sort_components S = Ok out ->
  exists d, out = map snd (reverse (stable_sort (reverse d)))
            /\ map snd d = keys (components S)
            /\ Forall (fun p => amount_is (snd p) (fst p)) d.
Proof.
  intros Hout.
  destruct (for_each record_amount (keys (components S)) ∅) as [m|e] eqn:Hm.
  - destruct (sort_components_ok m Hm) as (d & Hd & Hrest).
    exists d. split; [congruence|exact Hrest].
  - unfold _sort_components in Hout. rewrite Hm in Hout. discriminate.
Qed.

Lemma sort_components_perm (out : list string) :
  _sort_components S = Ok out -> Permutation out (keys (components S)).
Proof.
  intros Hout. destruct (sort_components_decorated out Hout) as (d & -> & <- & _).
  apply Permutation_map.
  rewrite reverse_Permutation, stable_sort_perm. apply reverse_Permutation.
Qed.

Lemma sort_components_descending (out : list string) (i j : nat) (a b : string) :
  _sort_components S = Ok out ->
  (i < j)%nat -> out !! i = Some a -> out !! j = Some b ->
  exists qa qb, amount_is a qa /\ amount_is b qb /\ (qb <= qa)%Q.
Proof.
  intros Hout Hij Hi Hj.
  destruct (sort_components_decorated out Hout) as (d & -> & _ & Hall).
  set (s := reverse (stable_sort (reverse d))) in *.
  assert (Hs : StronglySorted (flip key_le) s)
    by apply reverse_sorted, stable_sort_sorted.
  assert (Hamt : forall p, p ∈ s -> amount_is (snd p) (fst p)).
  { intros p Hp. rewrite Forall_forall in Hall. apply Hall.
    unfold s in Hp. rewrite elem_of_reverse in Hp.
    rewrite (stable_sort_perm (reverse d)) in Hp.
    rewrite elem_of_reverse in Hp. exact Hp. }
  change (map snd s) with (snd <$> s) in Hi, Hj.
  rewrite list_lookup_fmap in Hi, Hj.
  destruct (s !! i) as [p|] eqn:Hpi; [|discriminate].
  destruct (s !! j) as [r|] eqn:Hrj; [|discriminate].
  injection Hi as <-. injection Hj as <-.
  exists (fst p), (fst r). split; [|split].
  - apply Hamt. eapply list_elem_of_lookup_2, Hpi.
  - apply Hamt. eapply list_elem_of_lookup_2, Hrj.
  - apply (sorted_lookup _ s i j p r Hs Hij Hpi Hrj).
Qed.

End RankFacts.

(** C2: the output of [_sort_components] is a permutation of the
    solution's species keys, and of any two positions [i < j] of it the
    amount of the species at [i] is at least that of the species at [j].
    There is no output only when [get_amount] raises on some key, and the
    exception is then passed on as it is. *)
Theorem sort_components_ranked {Component : Type} (S : Solution Component) :
  match _sort_components S with
  | Ok out =>
      Permutation out (keys (components S))
      /\ length out = length (components S)
      /\ forall (i j : nat) (a b : string),
           (i < j)%nat -> out !! i = Some a -> out !! j = Some b ->
           exists qa qb : Q,
             amount_is S a qa /\ amount_is S b qb /\ (qb <= qa)%Q
  | Raise e =>
      exists k : string, In k (keys (components S)) /\ get_amount S k "mol" = Raise e
  end.
Proof.
  destruct (_sort_components S) as [out|e] eqn:Hout.
  - pose proof (sort_components_perm S out Hout) as Hperm.
    split; [exact Hperm|]. split.
    + rewrite (Permutation_length Hperm). apply length_map.
    + intros i j a b. apply sort_components_descending, Hout.
  - destruct (sort_components_raise S e Hout) as (k & Hk & He).
    exists k. split; [apply list_elem_of_In, Hk|exact He].
Qed.

(** ** [identify_salt] *)

Lemma for_each_app {A B} (step : B -> A -> result B) (l1 l2 : list A) (acc : B) :
  for_each step (l1 ++ l2) acc = (acc' ← for_each step l1 acc; for_each step l2 acc').
Proof.
  revert acc. induction l1 as [|x l1 IH]; intros acc; [reflexivity|].
  cbn [for_each app]. destruct (step acc x) as [acc'|e]; [apply IH|reflexivity].
Qed.

Section IdentifyFacts.

Context {Component : Type}.
Variable get_formal_charge : string -> result Z.
Local Abbreviation gfc := get_formal_charge.
Local Abbreviation scan := (scan_ions get_formal_charge).
Local Abbreviation step := (assign_ion get_formal_charge).

(** One step, slot by slot: the two tests exclude each other, so the
    [elif] does not show. *)
Lemma assign_ion_slots (cation anion item : string) (charge : Z) :
  gfc item = Ok charge ->
  step (cation, anion) item =
    Ok (if (0 <? charge) && String.eqb cation "" then item else cation,
        if (charge <? 0) && String.eqb anion "" then item else anion).
Proof.
  intros Hitem. unfold assign_ion. rewrite Hitem. cbn [mbind result_bind].
  destruct (Z.ltb_spec 0 charge), (Z.ltb_spec charge 0); try lia;
    destruct (String.eqb cation ""), (String.eqb anion ""); reflexivity.
Qed.

Lemma assign_ion_neutral (slots : string * string) (item : string) :
  gfc item = Ok 0 -> step slots item = Ok slots.
Proof.
  intros H. destruct slots as [cation anion].
  rewrite (assign_ion_slots _ _ _ _ H). reflexivity.
Qed.

(** A step raises what the parser raised on the item, and nothing else. *)
Lemma assign_ion_raise (slots : string * string) (item : string) (e : exn) :
  step slots item = Raise e <-> gfc item = Raise e.
Proof.
  destruct slots as [cation anion].
  destruct (gfc item) as [charge|e'] eqn:Hitem.
  - rewrite (assign_ion_slots _ _ _ _ Hitem). split; discriminate.
  - unfold assign_ion. rewrite Hitem. cbn [mbind result_bind].
    split; intros [= <-]; reflexivity.
Qed.



(** A filled slot is kept by every later step. *)
Lemma cation_kept (l : list string) (cation anion : string) (out : string * string) :
  cation <> "" -> for_each step l (cation, anion) = Ok out -> fst out = cation.
Proof.
  intros Hc. revert anion. induction l as [|x l IH]; intros anion.
  - intros [= <-]. reflexivity.
  - cbn [for_each]. destruct (gfc x) as [charge|e] eqn:Hx.
    + rewrite (assign_ion_slots _ _ _ _ Hx). cbn [mbind result_bind].
      destruct (String.eqb_spec cation "") as [?|_]; [contradiction|].
      rewrite andb_false_r. apply IH.
    + apply (assign_ion_raise (cation, anion)) in Hx. rewrite Hx. discriminate.
Qed.

Lemma anion_kept (l : list string) (cation anion : string) (out : string * string) :
  anion <> "" -> for_each step l (cation, anion) = Ok out -> snd out = anion.
Proof.
  intros Ha. revert cation. induction l as [|x l IH]; intros cation.
  - intros [= <-]. reflexivity.
  - cbn [for_each]. destruct (gfc x) as [charge|e] eqn:Hx.
    + rewrite (assign_ion_slots _ _ _ _ Hx). cbn [mbind result_bind].
      destruct (String.eqb_spec anion "") as [?|_]; [contradiction|].
      rewrite andb_false_r. apply IH.
    + apply (assign_ion_raise (cation, anion)) in Hx. rewrite Hx. discriminate.
Qed.

Lemma slot_step (test : string -> bool) (item slot : string) (l : list string) :
  (item = "" -> test item = false) ->
  (let slot' := if test item && String.eqb slot "" then item else slot in
   if String.eqb slot' "" then default "" (find test l) else slot')
  = if String.eqb slot "" then default "" (find test (item :: l)) else slot.
Proof.
  intros Hempty. cbn [find].
  destruct (String.eqb_spec slot "") as [->|Hslot].
  - destruct (test item) eqn:Hitem; cbn [andb]; [|reflexivity].
    destruct (String.eqb_spec item "") as [Hnil|_]; [|reflexivity].
    discriminate (Hempty Hnil).
  - rewrite andb_false_r. cbv zeta.
    destruct (String.eqb_spec slot ""); [contradiction|reflexivity].
Qed.

(** The loop from any pair of slots, when the parser answers [charge] on
    every species: a slot still empty receives the first species of the
    matching sign.  The empty string marks an empty slot, so as a species
    it has to be neutral. *)
Lemma scan_from (charge : string -> Z) (l : list string) (cation anion : string) :
  (forall k, In k l -> gfc k = Ok (charge k)) ->
  (In "" l -> charge "" = 0) ->
  for_each step l (cation, anion) =
    Ok (if String.eqb cation "" then default "" (find (fun k => 0 <? charge k) l)
        else cation,
        if String.eqb anion "" then default "" (find (fun k => charge k <? 0) l)
        else anion).
Proof.
  revert cation anion.
  induction l as [|x l IH]; intros cation anion Hknown Hempty.
  - simpl. destruct (String.eqb_spec cation "") as [->|?],
      (String.eqb_spec anion "") as [->|?]; reflexivity.
  - cbn [for_each].
    rewrite (assign_ion_slots _ _ _ _ (Hknown x (or_introl eq_refl))).
    cbn [mbind result_bind]. rewrite IH;
      [|intros k Hk; apply Hknown; right; exact Hk
       |intros Hin; apply Hempty; right; exact Hin].
    f_equal. f_equal.
    + apply (slot_step (fun k => 0 <? charge k)).
      intros ->. rewrite Hempty by (left; reflexivity). reflexivity.
    + apply (slot_step (fun k => charge k <? 0)).
      intros ->. rewrite Hempty by (left; reflexivity). reflexivity.
Qed.

Lemma scan_first_match (charge : string -> Z) (sort_list : list string) :
  (forall k, In k sort_list -> gfc k = Ok (charge k)) ->
  (In "" sort_list -> charge "" = 0) ->
  scan sort_list =
    Ok (default "" (find (fun k => 0 <? charge k) sort_list),
        default "" (find (fun k => charge k <? 0) sort_list)).
Proof.
  intros Hknown Hempty. unfold scan_ions. rewrite drop_0.
  rewrite (scan_from charge _ _ _ Hknown Hempty). reflexivity.
Qed.

(** With no charged species both slots stay empty. *)
Lemma scan_all_neutral (sort_list : list string) :
  (forall k, In k sort_list -> gfc k = Ok 0) -> scan sort_list = Ok ("", "").
Proof.
  unfold scan_ions. rewrite drop_0.
  induction sort_list as [|x l IH]; intros Hall; [reflexivity|].
  cbn [for_each]. rewrite assign_ion_neutral by (apply Hall; left; reflexivity).
  apply IH. intros k Hk. apply Hall. right. exact Hk.
Qed.

Lemma scan_app (done todo : list string) :
  scan (done ++ todo) = (slots ← scan done; for_each step todo slots).
Proof. unfold scan_ions. rewrite !drop_0. apply for_each_app. Qed.

Variable S : Solution Component.

Lemma identify_salt_aqueous (log : list LogRecord) (rest : list string)
    (slots : string * string) :
  _sort_components S = Ok ("H2O" :: rest) ->
  scan ("H2O" :: rest) = Ok slots ->
  identify_salt gfc S log = (Some <$> build_salt gfc (fst slots) (snd slots), log).
Proof.
  intros Hsort Hscan. unfold identify_salt. rewrite Hsort. cbn [getitem0].
  change (String.eqb "H2O" "H2O") with true. cbn [negb].
  rewrite Hscan. destruct slots as [cation anion]. cbn [fst snd].
  destruct (build_salt gfc cation anion); reflexivity.
Qed.


Lemma identify_salt_rejected (log : list LogRecord) (dominant : string)
    (rest : list string) :
  _sort_components S = Ok (dominant :: rest) ->
  dominant <> "H2O" ->
  identify_salt gfc S log =
    (Ok None, warning "H2O is not the most prominent component" log).
Proof.
  intros Hsort Hne. unfold identify_salt. rewrite Hsort. cbn [getitem0].
  destruct (String.eqb_spec dominant "H2O"); [contradiction|reflexivity].
Qed.


End IdentifyFacts.




(** C3: on a ranked list that starts with ["H2O"], the scan of
    [identify_salt] leaves in the cation slot the first species of the
    list with a positive charge and in the anion slot the first with a
    negative charge (the empty string when there is none); a species of
    charge zero changes neither slot, and a slot filled after part of the
    list keeps its species to the end.  The charges are those the parser
    returns on the species of the list.  The empty string marks a free
    slot: where it occurs as a species it is taken to be neutral. *)
Theorem scan_ions_first_match (get_formal_charge : string -> result Z)
    (charge : string -> Z) (rest : list string) :
  (forall k : string, In k ("H2O" :: rest) -> get_formal_charge k = Ok (charge k)) ->
  (In "" rest -> charge "" = 0) ->
  (forall (Component : Type) (S : Solution Component) (log : list LogRecord),
      _sort_components S = Ok ("H2O" :: rest) ->
      identify_salt get_formal_charge S log =
        (Some <$> build_salt get_formal_charge
                    (default "" (find (fun k => 0 <? charge k) ("H2O" :: rest)))
                    (default "" (find (fun k => charge k <? 0) ("H2O" :: rest))),
         log))
  /\ scan_ions get_formal_charge ("H2O" :: rest) =
       Ok (default "" (find (fun k => 0 <? charge k) ("H2O" :: rest)),
           default "" (find (fun k => charge k <? 0) ("H2O" :: rest)))
  /\ (forall (slots : string * string) (item : string),
        get_formal_charge item = Ok 0 ->
        assign_ion get_formal_charge slots item = Ok slots)
  /\ (forall done todo : list string,
        "H2O" :: rest = done ++ todo ->
        exists before after : string * string,
          scan_ions get_formal_charge done = Ok before
          /\ scan_ions get_formal_charge ("H2O" :: rest) = Ok after
          /\ (fst before <> "" -> fst after = fst before)
          /\ (snd before <> "" -> snd after = snd before)).
Proof.
  intros Hknown Hempty.
  assert (Hempty' : In "" ("H2O" :: rest) -> charge "" = 0)
    by (intros [Hwater|Hin]; [discriminate|apply Hempty, Hin]).
  pose proof (scan_first_match get_formal_charge charge _ Hknown Hempty') as Hscan.
  split; [|split; [exact Hscan|split]].
  - intros Component S log Hsort.
    rewrite (identify_salt_aqueous get_formal_charge S log rest _ Hsort Hscan).
    reflexivity.
  - apply assign_ion_neutral.
  - intros done todo Hsplit. rewrite Hsplit in Hscan |- *.
    destruct (scan_ions get_formal_charge done) as [[cation anion]|e] eqn:Hdone.
    + exists (cation, anion). eexists. split; [reflexivity|]. split; [exact Hscan|].
      rewrite scan_app, Hdone in Hscan. cbn [mbind result_bind] in Hscan.
      cbn [fst snd]. split; intros Hfilled.
      * apply (cation_kept _ _ _ _ _ Hfilled Hscan).
      * apply (anion_kept _ _ _ _ _ Hfilled Hscan).
    + rewrite scan_app, Hdone in Hscan. discriminate.
Qed.

Lemma scan_ions_first_match_witness :
  scan_ions chem.get_formal_charge ["H2O"; "Na+"; "Cl-"; "OH-"; "H+"]
  = Ok ("Na+", "Cl-").
Proof.
  destruct (scan_ions_first_match chem.get_formal_charge chem.formal_charge
              ["Na+"; "Cl-"; "OH-"; "H+"]) as (_ & Hscan & _).
  - intros k [<-|[<-|[<-|[<-|[<-|[]]]]]]; reflexivity.
  - intros _. reflexivity.
  - rewrite Hscan. reflexivity.
Defined.

(** C9: with no component at all, [identify_salt] returns neither [None]
    nor a string: reading the first element of the empty ranked list
    raises [IndexError]. *)
Theorem identify_salt_no_components {Component : Type}
    (get_formal_charge : string -> result Z) (S : Solution Component)
    (log : list LogRecord) :
  components S = [] ->
  _sort_components S = Ok []
  /\ identify_salt get_formal_charge S log = (Raise IndexError, log).
Proof.
  intros Hnone.
  assert (Hsort : _sort_components S = Ok [])
    by (unfold _sort_components; rewrite Hnone; reflexivity).
  split; [exact Hsort|].
  unfold identify_salt. rewrite Hsort. reflexivity.
Qed.

Lemma identify_salt_no_components_witness :
  _sort_components no_components = Ok []
  /\ identify_salt chem.get_formal_charge no_components [] = (Raise IndexError, []).
Proof.
  apply (identify_salt_no_components chem.get_formal_charge no_components []).
  reflexivity.
Defined.

(** C10, as stated, fails: on pure water both slots stay empty and
    [build_salt] asks the parser for the charge of the empty string; the
    parser raises [IndexError], and so does [identify_salt]. *)
Lemma identify_salt_pure_water_raises :
  _sort_components pure_water = Ok ["H2O"]
  /\ chem.get_formal_charge "H2O" = Ok 0
  /\ chem.get_formal_charge "" = Raise IndexError
  /\ identify_salt chem.get_formal_charge pure_water [] = (Raise IndexError, []).
Proof. vm_compute. repeat split. Qed.

(** C10, amended: when ["H2O"] ranks first and every species has charge
    zero, both slots stay empty and [identify_salt] hands two empty
    strings to [build_salt].  If the parser returns a charge for the empty
    string, whatever it is, both coefficients are 1, both trimmed blocks
    are empty and [identify_salt] returns the empty string, not [None]; if
    the parser raises on the empty string, [identify_salt] raises that
    exception. *)
Theorem identify_salt_no_ions {Component : Type}
    (get_formal_charge : string -> result Z) (S : Solution Component)
    (log : list LogRecord) (rest : list string) :
  _sort_components S = Ok ("H2O" :: rest) ->
  (forall k : string, In k (keys (components S)) -> get_formal_charge k = Ok 0) ->
  scan_ions get_formal_charge ("H2O" :: rest) = Ok ("", "")
  /\ identify_salt get_formal_charge S log
     = (Some <$> build_salt get_formal_charge "" "", log)
  /\ (forall charge : Z,
        get_formal_charge "" = Ok charge ->
        coefficients charge charge = (1, 1)
        /\ _trim_formal_charge get_formal_charge "" = Ok ""
        /\ identify_salt get_formal_charge S log = (Ok (Some ""), log))
  /\ (forall e : exn,
        get_formal_charge "" = Raise e ->
        identify_salt get_formal_charge S log = (Raise e, log)).
Proof.
  intros Hsort Hneutral.
  assert (Hscan : scan_ions get_formal_charge ("H2O" :: rest) = Ok ("", "")).
  { apply scan_all_neutral. intros k Hk. apply Hneutral.
    eapply Permutation_in; [apply sort_components_perm, Hsort|exact Hk]. }
  pose proof (identify_salt_aqueous get_formal_charge S log rest _ Hsort Hscan)
    as Hid. cbn [fst snd] in Hid.
  split; [exact Hscan|]. split; [exact Hid|]. split.
  - intros charge Hcharge.
    assert (Hnu : coefficients charge charge = (1, 1))
      by (apply coefficients_equal_magnitude; reflexivity).
    pose proof (trim_empty _ _ Hcharge) as Htrim.
    split; [exact Hnu|]. split; [exact Htrim|].
    rewrite Hid, (build_salt_blocks _ _ _ _ _ _ _ _ _ Hcharge Hcharge Hnu Htrim Htrim).
    reflexivity.
  - intros e He. rewrite Hid, (build_salt_raise_cation _ _ _ _ He). reflexivity.
Qed.

Lemma identify_salt_no_ions_witness :
  identify_salt (fun k => Ok (chem.formal_charge k)) pure_water []
  = (Ok (Some ""), [])
  /\ identify_salt chem.get_formal_charge pure_water [] = (Raise IndexError, []).
Proof.
  split.
  - destruct (identify_salt_no_ions (fun k => Ok (chem.formal_charge k))
                pure_water [] []) as (_ & _ & Hstring & _).
    + vm_compute. reflexivity.
    + intros k [<-|[]]. reflexivity.
    + apply (Hstring 0). reflexivity.
  - destruct (identify_salt_no_ions chem.get_formal_charge pure_water [] [])
      as (_ & _ & _ & Hraise).
    + vm_compute. reflexivity.
    + intros k [<-|[]]. reflexivity.
    + apply Hraise. reflexivity.
Defined.

(** * Further properties of the four functions *)

(** ** Ties keep the order of [components] *)

Lemma filter_reverse {A} (P : A -> bool) (l : list A) :
  List.filter P (reverse l) = reverse (List.filter P l).
Proof.
  induction l as [|x l IH]; [reflexivity|].
  rewrite reverse_cons, List.filter_app, IH. cbn [List.filter].
  destruct (P x); [rewrite reverse_cons; reflexivity|apply app_nil_r].
Qed.

Section StableFacts.

Context {A : Type}.
Implicit Types (x y : Q * A) (l : list (Q * A)).

(** The decorated items whose key equals [q]. *)
Local Abbreviation keyed q := (fun x : Q * A => Qeq_bool (fst x) q).

(** An inserted item only passes items of a strictly smaller key. *)
Lemma insert_by_key_filter (q : Q) x l :
  List.filter (keyed q) (insert_by_key x l) = List.filter (keyed q) (x :: l).
Proof.
  induction l as [|y l IH]; [reflexivity|].
  cbn [insert_by_key]. destruct (Qltb (fst y) (fst x)) eqn:Hlt; [|reflexivity].
  cbn [List.filter] in IH |- *. rewrite IH.
  destruct (Qeq_bool (fst x) q) eqn:Hx; [|reflexivity].
  destruct (Qeq_bool (fst y) q) eqn:Hy; [|reflexivity].
  apply Qltb_lt in Hlt. apply Qeq_bool_iff in Hx, Hy.
  rewrite Hx, Hy in Hlt. destruct (Qlt_irrefl _ Hlt).
Qed.

Lemma stable_sort_filter (q : Q) l :
  List.filter (keyed q) (stable_sort l) = List.filter (keyed q) l.
Proof.
  induction l as [|x l IH]; [reflexivity|].
  cbn [stable_sort]. rewrite insert_by_key_filter.
  cbn [List.filter]. rewrite IH. reflexivity.
Qed.

End StableFacts.

(** Filtering the keys by amount is filtering the decorated items by key. *)
Lemma filter_decorated {Component} (S : Solution Component) (q : Q)
    (d : list (Q * string)) :
  Forall (fun p => amount_is S (snd p) (fst p)) d ->
  List.filter (same_amount S q) (map snd d)
  = map snd (List.filter (fun p => Qeq_bool (fst p) q) d).
Proof.
  induction 1 as [|p d Hp _ IH]; [reflexivity|].
  cbn [map List.filter]. rewrite IH. unfold same_amount at 1.
  hnf in Hp. rewrite Hp. destruct (Qeq_bool (fst p) q); reflexivity.
Qed.

Lemma sort_components_keeps_ties {Component : Type} (S : Solution Component)
    (out : list string) (q : Q) :
  _sort_components S = Ok out ->
  List.filter (same_amount S q) out
  = List.filter (same_amount S q) (keys (components S)).
Proof.
  intros Hout.
  destruct (sort_components_decorated S out Hout) as (d & -> & <- & Hall).
  assert (Hsorted : Forall (fun p => amount_is S (snd p) (fst p))
                      (reverse (stable_sort (reverse d)))).
  { rewrite Forall_forall in Hall |- *. intros p Hp. apply Hall.
    rewrite elem_of_reverse, (stable_sort_perm (reverse d)), elem_of_reverse in Hp.
    exact Hp. }
  rewrite (filter_decorated S q _ Hsorted), (filter_decorated S q _ Hall).
  rewrite filter_reverse, stable_sort_filter, filter_reverse, reverse_involutive.
  reflexivity.
Qed.

(** X1: among the species of one and the same amount, the ranked list
    keeps the order in which [components] yields them. *)
Theorem sort_components_stable {Component : Type} (S : Solution Component)
    (out : list string) (q : Q) :
  _sort_components S = Ok out ->
  List.filter (same_amount S q) out
  = List.filter (same_amount S q) (keys (components S)).
Proof. apply sort_components_keeps_ties. Qed.

Lemma sort_components_stable_witness :
  List.filter (same_amount brine (1 # 2)%Q) ["H2O"; "Na+"; "Cl-"; "OH-"; "H+"]
  = List.filter (same_amount brine (1 # 2)%Q) (keys (components brine))
  /\ List.filter (same_amount brine (1 # 2)%Q) (keys (components brine))
     = ["Na+"; "Cl-"].
Proof.
  split; [|reflexivity].
  apply (sort_components_stable brine). vm_compute. reflexivity.
Defined.

(** ** Which exception, and when *)

Section RaiseFacts.

Context {Component : Type} (S : Solution Component).

Local Abbreviation first_failure := (first_failure S).

Local Abbreviation record_amount :=
  (fun (mol_list : gmap string Q) item =>
     amount ← get_amount S item "mol"; Ok (<[item := amount]> mol_list)).

Lemma mol_list_first_failure (l : list string) (m : gmap string Q) (e : exn) :
  for_each record_amount l m = Raise e <-> exists k, first_failure l k e.
Proof.
  revert m. induction l as [|x l IH]; intros m; simpl.
  - split; [discriminate|]. intros (k & done & todo & Hl & _).
    destruct done; discriminate.
  - destruct (get_amount S x "mol") as [q|e'] eqn:Hx; simpl.
    + rewrite IH. split.
      * intros (k & done & todo & -> & Hdone & Hk).
        exists k, (x :: done), todo. split; [reflexivity|]. split; [|exact Hk].
        intros y [<-|Hy]; [exists q; exact Hx|apply Hdone, Hy].
      * intros (k & done & todo & Hl & Hdone & Hk).
        destruct done as [|y done]; simpl in Hl; injection Hl as <- ->.
        { congruence. }
        exists k, done, todo. split; [reflexivity|]. split; [|exact Hk].
        intros z Hz. apply Hdone. right. exact Hz.
    + split.
      * intros [= <-]. exists x, [], l. split; [reflexivity|].
        split; [intros y []|exact Hx].
      * intros (k & done & todo & Hl & Hdone & Hk).
        destruct done as [|y done]; simpl in Hl; injection Hl as <- ->.
        { congruence. }
        destruct (Hdone x) as [q Hq]; [left; reflexivity|].
        hnf in Hq. congruence.
Qed.

Lemma sort_components_first_failure (e : exn) :
  _sort_components S = Raise e
  <-> exists k, first_failure (keys (components S)) k e.
Proof.
  rewrite <- (mol_list_first_failure _ ∅).
  destruct (for_each record_amount (keys (components S)) ∅) as [m|e'] eqn:Hm.
  - destruct (sort_components_ok S m Hm) as (d & -> & _).
    split; discriminate.
  - unfold _sort_components. rewrite Hm. simpl.
    split; intros [= <-]; reflexivity.
Qed.

End RaiseFacts.

Lemma keys_nil {V} (d : list (string * V)) : keys d = [] -> d = [].
Proof. destruct d; [reflexivity|discriminate]. Qed.

(** X2: [_sort_components] raises exactly when [get_amount] raises on a
    key, and then with the exception of the first such key in the order of
    [components]; it returns a list exactly when every key has an
    amount.  The lookup in [mol_list] never raises a [KeyError] of its
    own. *)
Theorem sort_components_raises {Component : Type} (S : Solution Component) :
  (forall e : exn,
      _sort_components S = Raise e
      <-> exists k : string, first_failure S (keys (components S)) k e)
  /\ ((exists out : list string, _sort_components S = Ok out)
      <-> forall k : string,
            In k (keys (components S)) -> exists q : Q, amount_is S k q).
Proof.
  split; [apply sort_components_first_failure|]. split.
  - intros [out Hout] k Hk.
    destruct (sort_components_decorated S out Hout) as (d & _ & Hkeys & Hall).
    rewrite <- Hkeys in Hk. apply in_map_iff in Hk as (p & <- & Hp).
    rewrite Forall_forall in Hall. exists (fst p).
    apply Hall, list_elem_of_In, Hp.
  - intros Hknown. apply sort_components_total.
    intros k Hk. apply Hknown, list_elem_of_In, Hk.
Qed.

Lemma sort_components_raises_witness :
  _sort_components faulty = Raise (OtherError "Na+")
  /\ exists out : list string, _sort_components brine = Ok out.
Proof.
  split.
  - apply (sort_components_raises faulty).
    exists "Na+", ["H2O"], ["Cl-"]. split; [reflexivity|].
    split; [|reflexivity].
    intros x [<-|[]]. exists (555 # 10)%Q. reflexivity.
  - apply (sort_components_raises brine). cbn.
    intros k [<-|[<-|[<-|[<-|[<-|[]]]]]]; eexists; reflexivity.
Defined.



(** X4: [identify_salt] adds the warning record to the log exactly when
    it returns [None]; on every other path, a raised exception included,
    the log is left as it was.  Its result does not depend on the records
    already logged. *)
Theorem identify_salt_log {Component : Type}
    (get_formal_charge : string -> result Z) (S : Solution Component)
    (log : list LogRecord) :
  (fst (identify_salt get_formal_charge S log) = Ok None ->
   snd (identify_salt get_formal_charge S log)
   = log ++ [{| levelname := WARNING;
                msg := "H2O is not the most prominent component" |}])
  /\ (fst (identify_salt get_formal_charge S log) <> Ok None ->
      snd (identify_salt get_formal_charge S log) = log)
  /\ fst (identify_salt get_formal_charge S log)
     = fst (identify_salt get_formal_charge S []).
Proof.
  unfold identify_salt.
  destruct (_sort_components S) as [[|dominant rest]|e]; cbn [getitem0 fst snd];
    try (split; [discriminate|split; reflexivity]).
  destruct (negb (String.eqb dominant "H2O")); cbn [fst snd].
  - split; [reflexivity|]. split; [congruence|reflexivity].
  - destruct (scan_ions _ _) as [[cation anion]|e];
      [destruct (build_salt _ _ _)|]; cbn [fst snd];
      (split; [discriminate|split; reflexivity]).
Qed.

Lemma identify_salt_log_witness :
  snd (identify_salt chem.get_formal_charge spirit [])
  = [] ++ [{| levelname := WARNING;
              msg := "H2O is not the most prominent component" |}]
  /\ snd (identify_salt chem.get_formal_charge brine []) = []
  /\ snd (identify_salt chem.get_formal_charge faulty []) = []
  /\ snd (identify_salt chem.get_formal_charge sodium_water []) = [].
Proof.
  split; [|split; [|split]].
  - apply (identify_salt_log chem.get_formal_charge spirit []). reflexivity.
  - apply (identify_salt_log chem.get_formal_charge brine []). discriminate.
  - apply (identify_salt_log chem.get_formal_charge faulty []). discriminate.
  - apply (identify_salt_log chem.get_formal_charge sodium_water []). discriminate.
Defined.

(** ** The coefficients, beyond the balanced case *)

(** X5: for two nonzero charges the coefficients of [build_salt] balance
    the charge exactly when the charges have opposite signs, in either
    order; for two charges of the same sign they never do. *)
Theorem coefficients_balance_iff (z_cation z_anion : Z) :
  z_cation <> 0 -> z_anion <> 0 ->
  (z_cation * fst (coefficients z_cation z_anion)
   + z_anion * snd (coefficients z_cation z_anion) = 0
   <-> z_cation * z_anion < 0).
Proof.
  intros Hc Ha.
  destruct (Z.eq_dec (Z.abs z_cation) (Z.abs z_anion)) as [Heq|Hne].
  - rewrite (coefficients_equal_magnitude _ _ Heq). cbn [fst snd]. nia.
  - rewrite (coefficients_cross _ _ Hne). cbn [fst snd].
    destruct (Z.abs_spec z_cation) as [[? ->]|[? ->]],
             (Z.abs_spec z_anion) as [[? ->]|[? ->]]; nia.
Qed.

Lemma coefficients_balance_iff_witness :
  (3 * fst (coefficients 3 (-2)) + -2 * snd (coefficients 3 (-2)) = 0
   <-> 3 * -2 < 0)
  /\ (2 * fst (coefficients 2 1) + 1 * snd (coefficients 2 1) = 0
      <-> 2 * 1 < 0).
Proof.
  split; apply coefficients_balance_iff; discriminate.
Defined.

(** X6: the coefficients are never reduced: unless the two charges have
    the same magnitude, the greatest common divisor of the coefficients is
    that of the charges, so charges +4 and -2 give 2 and 4, not 1 and 2. *)
Theorem coefficients_gcd (z_cation z_anion : Z) :
  Z.gcd (fst (coefficients z_cation z_anion)) (snd (coefficients z_cation z_anion))
  = (if Z.abs z_cation =? Z.abs z_anion then 1 else Z.gcd z_cation z_anion)
  /\ coefficients 4 (-2) = (2, 4).
Proof.
  split; [|reflexivity].
  destruct (Z.eqb_spec (Z.abs z_cation) (Z.abs z_anion)) as [Heq|Hne].
  - rewrite (coefficients_equal_magnitude _ _ Heq). reflexivity.
  - rewrite (coefficients_cross _ _ Hne). cbn [fst snd].
    rewrite Z.gcd_abs_l, Z.gcd_abs_r. apply Z.gcd_comm.
Qed.

(** ** A neutral or missing ion *)

Section DegenerateFacts.

Variable get_formal_charge : string -> result Z.
Local Abbreviation trim := (_trim_formal_charge get_formal_charge).
Local Abbreviation build := (build_salt get_formal_charge).

Lemma build_salt_no_cation (cation anion : string) (b : Z) :
  get_formal_charge cation = Ok 0 -> get_formal_charge anion = Ok b -> b < 0 ->
  build cation anion =
    Ok ((if 1 <? - b then "()" +:+ str (- b) else "")
        +:+ substring_before "-" anion).
Proof.
  intros Hc Ha Hb.
  rewrite (build_salt_blocks _ _ _ _ _ (- b) 0 "" (substring_before "-" anion)
             Hc Ha).
  - reflexivity.
  - rewrite coefficients_cross by lia. f_equal. lia.
  - apply trim_neutral, Hc.
  - apply (trim_negative _ _ _ Ha Hb).
Qed.

Lemma build_salt_no_anion (cation anion : string) (a : Z) :
  get_formal_charge cation = Ok a -> 0 < a -> get_formal_charge anion = Ok 0 ->
  build cation anion =
    Ok (substring_before "+" cation
        +:+ (if 1 <? a then "()" +:+ str a else "")).
Proof.
  intros Hc Hpos Ha.
  rewrite (build_salt_blocks _ _ _ _ _ 0 a (substring_before "+" cation) ""
             Hc Ha).
  - reflexivity.
  - rewrite coefficients_cross by lia. f_equal. lia.
  - apply (trim_positive _ _ _ Hc Hpos).
  - apply trim_neutral, Ha.
Qed.

End DegenerateFacts.

(** X7: when the parser reads one of the two ions as neutral and the
    other as properly charged, [build_salt] raises nothing and returns a
    fragment: the trimmed other ion alone when that ion has charge +1 or
    -1, and otherwise the trimmed other ion next to an empty pair of
    parentheses with the magnitude of its charge. *)
Theorem build_salt_neutral_ion (get_formal_charge : string -> result Z)
    (cation anion : string) :
  (forall b : Z,
      get_formal_charge cation = Ok 0 -> get_formal_charge anion = Ok b -> b < 0 ->
      build_salt get_formal_charge cation anion =
        Ok ((if 1 <? - b then "()" +:+ str (- b) else "")
            +:+ substring_before "-" anion))
  /\ (forall a : Z,
      get_formal_charge cation = Ok a -> 0 < a -> get_formal_charge anion = Ok 0 ->
      build_salt get_formal_charge cation anion =
        Ok (substring_before "+" cation
            +:+ (if 1 <? a then "()" +:+ str a else ""))).
Proof.
  split; [apply build_salt_no_cation|apply build_salt_no_anion].
Qed.

Lemma build_salt_neutral_ion_witness :
  build_salt chem.get_formal_charge "H2O" "SO4-2" = Ok "()2SO4"
  /\ build_salt chem.get_formal_charge "H2O" "Cl-" = Ok "Cl"
  /\ build_salt chem.get_formal_charge "Fe+3" "H2O" = Ok "Fe()3".
Proof.
  split; [|split].
  - destruct (build_salt_neutral_ion chem.get_formal_charge "H2O" "SO4-2") as [H _].
    rewrite (H (-2)); reflexivity.
  - destruct (build_salt_neutral_ion chem.get_formal_charge "H2O" "Cl-") as [H _].
    rewrite (H (-1)); reflexivity.
  - destruct (build_salt_neutral_ion chem.get_formal_charge "Fe+3" "H2O") as [_ H].
    rewrite (H 3); reflexivity.
Defined.

(** ** The trimmed formula *)

Lemma substring_before_prefix (c : ascii) (s : string) :
  exists rest, s = substring_before c s +:+ rest.
Proof.
  induction s as [|a s [rest IH]]; [exists ""; reflexivity|].
  simpl. destruct (Ascii.eqb a c); [exists (String a s); reflexivity|].
  exists rest. change (String a s = String a (substring_before c s +:+ rest)).
  f_equal. exact IH.
Qed.

Lemma substring_before_free (c : ascii) (s : string) :
  ~ occurs c (substring_before c s).
Proof.
  induction s as [|a s IH]; simpl; [tauto|].
  destruct (Ascii.eqb_spec a c); simpl; tauto.
Qed.

(** X8: whatever the charge parser returns, what [_trim_formal_charge]
    returns is a prefix of the formula, without ['+'] when the charge is
    positive and without ['-'] when it is negative; a formula of positive
    charge that holds no ['+'] at all comes back whole.  It raises exactly
    when the parser raises, with the parser's exception. *)
Theorem trim_formal_charge_prefix
    (get_formal_charge : string -> result Z) (formula : string) :
  (forall out : string,
      _trim_formal_charge get_formal_charge formula = Ok out ->
      exists rest : string, formula = out +:+ rest)
  /\ (forall charge : Z,
      get_formal_charge formula = Ok charge -> 0 < charge ->
      exists out : string,
        _trim_formal_charge get_formal_charge formula = Ok out
        /\ ~ occurs "+" out
        /\ (~ occurs "+" formula -> out = formula))
  /\ (forall charge : Z,
      get_formal_charge formula = Ok charge -> charge < 0 ->
      exists out : string,
        _trim_formal_charge get_formal_charge formula = Ok out
        /\ ~ occurs "-" out
        /\ (~ occurs "-" formula -> out = formula))
  /\ (forall e : exn,
      _trim_formal_charge get_formal_charge formula = Raise e
      <-> get_formal_charge formula = Raise e).
Proof.
  split; [|split; [|split]].
  - intros out Hout.
    destruct (get_formal_charge formula) as [charge|e] eqn:Hgfc.
    + destruct (Z.lt_trichotomy charge 0) as [H|[->|H]].
      * rewrite (trim_negative _ _ _ Hgfc H) in Hout. injection Hout as <-.
        apply substring_before_prefix.
      * rewrite (trim_neutral _ _ Hgfc) in Hout. injection Hout as <-.
        exists formula. reflexivity.
      * rewrite (trim_positive _ _ _ Hgfc H) in Hout. injection Hout as <-.
        apply substring_before_prefix.
    + apply trim_raise in Hgfc. congruence.
  - intros charge Hgfc H. exists (substring_before "+" formula).
    split; [apply (trim_positive _ _ _ Hgfc H)|].
    split; [apply substring_before_free|apply substring_before_absent].
  - intros charge Hgfc H. exists (substring_before "-" formula).
    split; [apply (trim_negative _ _ _ Hgfc H)|].
    split; [apply substring_before_free|apply substring_before_absent].
  - intros e. apply trim_raise.
Qed.

Lemma trim_formal_charge_prefix_witness :
  (exists rest : string, "Fe(OH)2+" = "Fe(OH)2" +:+ rest)
  /\ (exists out : string,
         _trim_formal_charge chem.get_formal_charge "Fe(OH)2+" = Ok out
         /\ ~ occurs "+" out
         /\ (~ occurs "+" "Fe(OH)2+" -> out = "Fe(OH)2+"))
  /\ exists out : string,
       _trim_formal_charge chem.get_formal_charge "HCO3-" = Ok out
       /\ ~ occurs "-" out
       /\ (~ occurs "-" "HCO3-" -> out = "HCO3-").
Proof.
  split; [|split].
  - apply (trim_formal_charge_prefix chem.get_formal_charge "Fe(OH)2+").
    reflexivity.
  - apply (trim_formal_charge_prefix chem.get_formal_charge "Fe(OH)2+" ) with 1;
      [reflexivity|lia].
  - apply (trim_formal_charge_prefix chem.get_formal_charge "HCO3-") with (-1);
      [reflexivity|lia].
Defined.

(** ** The ions [identify_salt] picks *)

Lemma find_first {A} (P : A -> bool) (l : list A) (c : A) :
  find P l = Some c ->
  exists i : nat,
    l !! i = Some c /\ P c = true
    /\ forall (j : nat) (y : A), (j < i)%nat -> l !! j = Some y -> P y = false.
Proof.
  induction l as [|x l IH]; [discriminate|]. cbn [find].
  destruct (P x) eqn:Hx.
  - intros [= <-]. exists 0%nat. split; [reflexivity|]. split; [exact Hx|].
    intros j y Hj. lia.
  - intros Hfind. destruct (IH Hfind) as (i & Hi & Hc & Hbefore).
    exists (Datatypes.S i). split; [exact Hi|]. split; [exact Hc|].
    intros [|j] y Hj Hy; [injection Hy as <-; exact Hx|].
    apply (Hbefore j); [lia|exact Hy].
Qed.

Section DominantFacts.

Context {Component : Type} (S : Solution Component).

Lemma sort_components_amounts (out : list string) (k : string) :
  _sort_components S = Ok out -> In k out -> exists q, amount_is S k q.
Proof.
  intros Hout Hk.
  destruct (sort_components_decorated S out Hout) as (d & _ & Hkeys & Hall).
  apply (Permutation_in _ (sort_components_perm S out Hout)) in Hk.
  rewrite <- Hkeys in Hk. apply in_map_iff in Hk as (p & <- & Hp).
  rewrite Forall_forall in Hall. exists (fst p). apply Hall, list_elem_of_In, Hp.
Qed.

(** The first species of the ranked list that passes a test has at
    least the amount of every species that passes it. *)
Lemma first_match_dominant (test : string -> bool) (out : list string) (k : string) :
  _sort_components S = Ok out -> In k out -> test k = true ->
  exists c, find test out = Some c /\ test c = true /\ In c out /\ amount_ge S c k.
Proof.
  intros Hout Hk Htest.
  destruct (find test out) as [c|] eqn:Hfind;
    [|rewrite (find_none _ _ Hfind _ Hk) in Htest; discriminate].
  destruct (find_first _ _ _ Hfind) as (i & Hi & Hc & Hbefore).
  exists c. split; [reflexivity|]. split; [exact Hc|].
  split; [apply list_elem_of_In; eapply list_elem_of_lookup_2, Hi|].
  apply list_elem_of_In, list_elem_of_lookup in Hk as [j Hj].
  destruct (lt_eq_lt_dec i j) as [[Hlt| ->]|Hgt].
  - apply (sort_components_descending S out i j c k Hout Hlt Hi Hj).
  - assert (c = k) as -> by congruence.
    destruct (sort_components_amounts out k Hout) as [q Hq].
    { apply list_elem_of_In; eapply list_elem_of_lookup_2, Hj. }
    exists q, q. split; [exact Hq|]. split; [exact Hq|apply Qle_refl].
  - rewrite (Hbefore j k Hgt Hj) in Htest. discriminate.
Qed.

End DominantFacts.

(** X9: in a solution ranked with water first, on whose species the
    parser returns a charge, the cation [identify_salt] hands to
    [build_salt] is a species of positive charge whose amount is at least
    that of every species of positive charge, and likewise the anion among
    the species of negative charge.  The empty string, where it occurs as a
    species, is taken to be neutral. *)
Theorem identify_salt_dominant_ions {Component : Type}
    (get_formal_charge : string -> result Z) (charge : string -> Z)
    (S : Solution Component) (rest : list string) :
  _sort_components S = Ok ("H2O" :: rest) ->
  (forall k : string, In k ("H2O" :: rest) -> get_formal_charge k = Ok (charge k)) ->
  (In "" rest -> charge "" = 0) ->
  exists cation anion : string,
    scan_ions get_formal_charge ("H2O" :: rest) = Ok (cation, anion)
    /\ (forall log : list LogRecord,
          identify_salt get_formal_charge S log
          = (Some <$> build_salt get_formal_charge cation anion, log))
    /\ (forall k : string,
          In k (keys (components S)) -> 0 < charge k ->
          0 < charge cation
          /\ In cation (keys (components S))
          /\ amount_ge S cation k)
    /\ (forall k : string,
          In k (keys (components S)) -> charge k < 0 ->
          charge anion < 0
          /\ In anion (keys (components S))
          /\ amount_ge S anion k).
Proof.
  intros Hout Hknown Hempty.
  pose proof (sort_components_perm S _ Hout) as Hperm.
  assert (Hscan : scan_ions get_formal_charge ("H2O" :: rest) =
            Ok (default "" (find (fun k => 0 <? charge k) ("H2O" :: rest)),
                default "" (find (fun k => charge k <? 0) ("H2O" :: rest)))).
  { apply scan_first_match; [exact Hknown|].
    intros [Hwater|Hin]; [discriminate|apply Hempty, Hin]. }
  eexists. eexists. split; [exact Hscan|]. split; [|split].
  - intros log.
    rewrite (identify_salt_aqueous get_formal_charge S log rest _ Hout Hscan).
    reflexivity.
  - intros k Hk Hcharge.
    destruct (first_match_dominant S (fun k => 0 <? charge k)
                _ k Hout) as (c & -> & Hc & Hin & Hge).
    + eapply Permutation_in; [symmetry; exact Hperm|exact Hk].
    + apply Z.ltb_lt, Hcharge.
    + cbn [default]. split; [apply Z.ltb_lt, Hc|]. split; [|exact Hge].
      eapply Permutation_in; [exact Hperm|exact Hin].
  - intros k Hk Hcharge.
    destruct (first_match_dominant S (fun k => charge k <? 0)
                _ k Hout) as (c & -> & Hc & Hin & Hge).
    + eapply Permutation_in; [symmetry; exact Hperm|exact Hk].
    + apply Z.ltb_lt, Hcharge.
    + cbn [default]. split; [apply Z.ltb_lt, Hc|]. split; [|exact Hge].
      eapply Permutation_in; [exact Hperm|exact Hin].
Qed.

Lemma identify_salt_dominant_ions_witness :
  exists cation anion : string,
    scan_ions chem.get_formal_charge ["H2O"; "Na+"; "Cl-"; "OH-"; "H+"]
    = Ok (cation, anion)
    /\ amount_ge brine cation "H+"
    /\ amount_ge brine anion "OH-".
Proof.
  destruct (identify_salt_dominant_ions chem.get_formal_charge chem.formal_charge
              brine ["Na+"; "Cl-"; "OH-"; "H+"])
    as (cation & anion & Hscan & _ & Hcation & Hanion).
  - vm_compute. reflexivity.
  - intros k [<-|[<-|[<-|[<-|[<-|[]]]]]]; reflexivity.
  - intros _. reflexivity.
  - exists cation, anion. split; [exact Hscan|]. split.
    + apply (Hcation "H+"); [cbn; tauto|reflexivity].
    + apply (Hanion "OH-"); [cbn; tauto|reflexivity].
Defined.

(** ** The order of [components] matters for ties only *)


Section OrderFacts.

Context {Component : Type}.



End OrderFacts.



(** ** The species ranked first *)

(** X11: the species ranked first has at least the amount of every
    species, and among the species of that same amount it is the one
    [components] yields first. *)
Theorem sort_components_dominant {Component : Type} (S : Solution Component)
    (dominant : string) (rest : list string) (q : Q) :
  _sort_components S = Ok (dominant :: rest) ->
  amount_is S dominant q ->
  (forall k : string, In k (keys (components S)) -> amount_ge S dominant k)
  /\ exists later : list string,
       List.filter (same_amount S q) (keys (components S)) = dominant :: later.
Proof.
  intros Hout Hq. split.
  - intros k Hk.
    apply (Permutation_in _ (Permutation_sym (sort_components_perm S _ Hout))) in Hk.
    destruct Hk as [<-|Hk].
    + exists q, q. split; [exact Hq|]. split; [exact Hq|apply Qle_refl].
    + apply list_elem_of_In, list_elem_of_lookup in Hk as [j Hj].
      apply (sort_components_descending S _ 0 (Datatypes.S j) dominant k Hout);
        [lia|reflexivity|exact Hj].
  - rewrite <- (sort_components_keeps_ties S _ q Hout). cbn [List.filter].
    unfold same_amount at 1. hnf in Hq. rewrite Hq, Qeq_bool_refl. eauto.
Qed.

Lemma sort_components_dominant_witness :
  (forall k : string, In k (keys (components brine)) -> amount_ge brine "H2O" k)
  /\ exists later : list string,
       List.filter (same_amount brine (555 # 10)%Q) (keys (components brine))
       = "H2O" :: later.
Proof.
  apply (sort_components_dominant brine "H2O" ["Na+"; "Cl-"; "OH-"; "H+"]).
  - vm_compute. reflexivity.
  - reflexivity.
Defined.

(** X12: a solution that has components, an amount for each of them and
    no ["H2O"] among them is always turned down: [identify_salt] returns
    [None] and logs the warning, whatever the charges are. *)
Theorem identify_salt_without_water {Component : Type}
    (get_formal_charge : string -> result Z) (S : Solution Component)
    (log : list LogRecord) :
  components S <> [] ->
  (forall k : string, In k (keys (components S)) -> exists q : Q, amount_is S k q) ->
  ~ In "H2O" (keys (components S)) ->
  identify_salt get_formal_charge S log
  = (Ok None, log ++ [{| levelname := WARNING;
                          msg := "H2O is not the most prominent component" |}]).
Proof.
  intros Hsome Hknown Hdry.
  destruct (sort_components_total S) as [out Hout].
  { intros k Hk. apply Hknown, list_elem_of_In, Hk. }
  pose proof (sort_components_perm S out Hout) as Hperm.
  destruct out as [|dominant rest].
  - apply Permutation_nil, keys_nil in Hperm. contradiction.
  - apply (identify_salt_rejected get_formal_charge S log dominant rest Hout).
    intros ->. apply Hdry. eapply Permutation_in; [exact Hperm|left; reflexivity].
Qed.

Lemma identify_salt_without_water_witness :
  identify_salt chem.get_formal_charge
    {| components := [("Na+", tt); ("Cl-", tt)];
       get_amount := fun _ _ => Ok (1 # 1)%Q |} []
  = (Ok None, [] ++ [{| levelname := WARNING;
                        msg := "H2O is not the most prominent component" |}]).
Proof.
  apply identify_salt_without_water.
  - discriminate.
  - intros k _. exists (1 # 1)%Q. reflexivity.
  - cbn. intros [H|[H|[]]]; discriminate.
Defined.

(** ** The formula of two ions of different magnitude *)

(** X13: for a cation of charge [a > 0] and an anion of charge [b < 0]
    with [a <> -b], each ion is written as its formula up to the sign
    character, bare when its count is 1 and otherwise in parentheses
    followed by the count; the cation's count is [-b], the anion's [a].
    Every block of count above 1 is parenthesised, single atoms too. *)
Theorem build_salt_cross (get_formal_charge : string -> result Z)
    (cation anion : string) (a b : Z) :
  get_formal_charge cation = Ok a ->
  get_formal_charge anion = Ok b ->
  0 < a -> b < 0 -> a <> - b ->
  build_salt get_formal_charge cation anion =
    Ok ((if 1 <? - b
         then "(" +:+ substring_before "+" cation +:+ ")" +:+ str (- b)
         else substring_before "+" cation)
        +:+ (if 1 <? a
             then "(" +:+ substring_before "-" anion +:+ ")" +:+ str a
             else substring_before "-" anion)).
Proof.
  intros Hc Ha Hpos Hneg Hne.
  apply (build_salt_blocks _ _ _ _ _ (- b) a _ _ Hc Ha).
  - rewrite coefficients_cross by lia. f_equal; lia.
  - apply (trim_positive _ _ _ Hc Hpos).
  - apply (trim_negative _ _ _ Ha Hneg).
Qed.

Lemma build_salt_cross_witness :
  build_salt chem.get_formal_charge "Al+3" "O-2" = Ok "(Al)2(O)3"
  /\ build_salt chem.get_formal_charge "Na+" "SO4-2" = Ok "(Na)2SO4".
Proof.
  split.
  - rewrite (build_salt_cross chem.get_formal_charge "Al+3" "O-2" 3 (-2));
      [reflexivity|reflexivity|reflexivity|lia|lia|discriminate].
  - rewrite (build_salt_cross chem.get_formal_charge "Na+" "SO4-2" 1 (-2));
      [reflexivity|reflexivity|reflexivity|lia|lia|discriminate].
Defined.
